(** * The rustdoc implementors fragment [implementors/actix/actor/trait.Actor.js]

    The fragment is an immediately-invoked function that builds the
    implementors index of the [Actor] trait and hands it to the
    documentation browser: to the hook [window.register_implementors] when
    the page script has installed it, otherwise to the variable
    [window.pending_implementors].

    The script is embedded as a computation in a small monad that threads
    the JavaScript store and a log of the script's own effects, and that
    distinguishes normal completion, abrupt completion (a thrown exception)
    and a call that does not return.

    Scope of the model.  The properties of [window] are plain, writable
    data properties (no accessors, no prototype chain).  The hook is not
    part of the fragment: a function is known by its behaviour only, which
    may read and change the whole store, return, throw, or not return.  The
    document the hook renders into is not modelled. *)

From Stdlib Require Import ZArith String Ascii List Bool.
From Stdlib Require Import Floats.SpecFloat.
From Stdlib Require Import DecimalString.
From stdpp Require Import base option list strings gmap fin_maps.

Local Open Scope string_scope.
Local Open Scope list_scope.
Local Open Scope nat_scope.

(** ** Values *)

(** Ordinary objects and arrays live in the store and are named by
    locations; functions are named by an identifier into a table of
    behaviours. *)
Definition loc := positive.
Definition fid := nat.

(** References.  The global object [window] is a reference of its own, so
    that it exists in every store and is distinct from every allocated
    object.  Ordinary objects, arrays and functions are kept apart: the
    script only ever assigns properties of [window] and of the ordinary
    object it has created itself. *)
Inductive ref : Type :=
  | Window
  | Obj (l : loc)
  | Arr (l : loc)
  | Fun (f : fid).

(** The ECMAScript language values.  Numbers are IEEE 754 values. *)
Inductive value : Type :=
  | VUndefined
  | VNull
  | VBool (b : bool)
  | VNumber (x : spec_float)
  | VBigInt (n : Z)
  | VString (s : string)
  | VSymbol (description : string)
  | VObject (r : ref).

(** ECMAScript [ToBoolean], the test performed by [if (e)]:
    [undefined], [null], [false], [+0], [-0], [NaN], [0n] and the empty
    string are falsy; every other value, every object included, is
    truthy. *)
Definition to_boolean (v : value) : bool :=
  match v with
  | VUndefined | VNull => false
  | VBool b => b
  | VNumber (S754_zero _) | VNumber S754_nan => false
  | VNumber _ => true
  | VBigInt n => negb (n =? 0)%Z
  | VString EmptyString => false
  | VString _ => true
  | VSymbol _ => true
  | VObject _ => true
  end.

(** [v !== undefined] *)
Definition is_defined (v : value) : bool :=
  match v with
  | VUndefined => false
  | _ => true
  end.

(** ECMAScript [IsCallable]. *)
Definition is_callable (v : value) : bool :=
  match v with
  | VObject (Fun _) => true
  | _ => false
  end.

(** ** Store *)

(** [globals] holds the properties of [window] (plain, writable data
    properties); [objects] the ordinary objects, as maps from property
    names to values; [arrays] the arrays, as the sequence of their
    elements. *)
Record store : Type := Store {
  globals : gmap string value;
  objects : gmap loc (gmap string value);
  arrays : gmap loc (list value)
}.

(** Reading a property that is absent yields [undefined]. *)
Definition read_global (k : string) (σ : store) : value :=
  default VUndefined (globals σ !! k).

Definition write_global (k : string) (v : value) (σ : store) : store :=
  {| globals := <[k := v]> (globals σ);
     objects := objects σ;
     arrays := arrays σ |}.

Definition write_own (l : loc) (k : string) (v : value) (σ : store) : store :=
  {| globals := globals σ;
     objects := alter (insert k v) l (objects σ);
     arrays := arrays σ |}.

Definition alloc_object (σ : store) : loc * store :=
  let l := fresh (dom (objects σ)) in
  (l, {| globals := globals σ;
         objects := <[l := ∅]> (objects σ);
         arrays := arrays σ |}).

Definition alloc_array (elems : list value) (σ : store) : loc * store :=
  let l := fresh (dom (arrays σ)) in
  (l, {| globals := globals σ;
         objects := objects σ;
         arrays := <[l := elems]> (arrays σ) |}).

(** ** Function calls *)

(** What is thrown: the [TypeError] raised by a call of a value that is
    not callable, or whatever a called function throws. *)
Inductive thrown : Type :=
  | TypeError_not_a_function (callee : value)
  | Raised (v : value).

(** The outcome of calling a function: it returns a value, it throws, or
    it does not return. *)
Inductive outcome : Type :=
  | Returns (v : value) (σ : store)
  | Throws (e : thrown) (σ : store)
  | Diverges.

(** The behaviour of a function, given its [this] value, its arguments and
    the store it is called in. *)
Definition behaviour : Type := value → list value → store → outcome.

(** ** The effect monad of the script *)

(** The script's own effects, in the order it performs them. *)
Inductive event : Type :=
  | ESetOwn (l : loc) (k : string) (v : value)
  | ESetGlobal (k : string) (v : value)
  | ECall (callee this : value) (args : list value).

Record state : Type := State {
  sto : store;
  log : list event
}.

Inductive result (A : Type) : Type :=
  | Done (a : A) (s : state)
  | Fail (e : thrown) (s : state)
  | Hang (s : state).

Arguments Done {A} a s.
Arguments Fail {A} e s.
Arguments Hang {A} s.

Definition M (A : Type) : Type := state → result A.

#[export] Instance M_ret : MRet M := fun A (a : A) s => Done a s.

#[export] Instance M_bind : MBind M :=
  fun A B (k : A → M B) (m : M A) s =>
    match m s with
    | Done a s' => k a s'
    | Fail e s' => Fail e s'
    | Hang s' => Hang s'
    end.

Definition emit (e : event) (s : state) : state :=
  {| sto := sto s; log := log s ++ [e] |}.

(** [{}] *)
Definition new_object : M loc :=
  fun s => let '(l, σ) := alloc_object (sto s) in
           Done l {| sto := σ; log := log s |}.

(** [[e1, ..., en]] *)
Definition new_array (elems : list value) : M loc :=
  fun s => let '(l, σ) := alloc_array elems (sto s) in
           Done l {| sto := σ; log := log s |}.

(** [o[k] = v] for an ordinary object [o] *)
Definition set_own (l : loc) (k : string) (v : value) : M unit :=
  fun s => Done tt (emit (ESetOwn l k v)
                      {| sto := write_own l k v (sto s); log := log s |}).

(** [window.k] *)
Definition get_global (k : string) : M value :=
  fun s => Done (read_global k (sto s)) s.

(** [window.k = v] *)
Definition set_global (k : string) (v : value) : M unit :=
  fun s => Done tt (emit (ESetGlobal k v)
                      {| sto := write_global k v (sto s); log := log s |}).

Section Call.

(** The behaviour of every function of the page. *)
Variable code : fid → behaviour.

(** [f.call(this, args)]: a [TypeError] unless [f] is callable; the
    arguments have been evaluated by then. *)
Definition call (callee this : value) (args : list value) : M value :=
  fun s =>
    match callee with
    | VObject (Fun f) =>
        let s1 := emit (ECall callee this args) s in
        match code f this args (sto s1) with
        | Returns v σ => Done v {| sto := σ; log := log s1 |}
        | Throws e σ => Fail e {| sto := σ; log := log s1 |}
        | Diverges => Hang s1
        end
    | _ => Fail (TypeError_not_a_function callee) s
    end.

End Call.

(** ** The script *)

Definition dquote : string := String "034"%char EmptyString.

(** A double-quoted literal whose only escape sequence is the escaped
    quotation mark: the segments between the escapes, joined by the
    quotation mark. *)
Definition js_literal (segments : list string) : string :=
  String.concat dquote segments.

Definition impl_ClientConnector : string :=
  js_literal
    [ "impl Actor for <a class=";
      "struct";
      " href=";
      "actix_web/client/struct.ClientConnector.html";
      " title=";
      "struct actix_web::client::ClientConnector";
      ">ClientConnector</a>" ].

Definition impl_HttpServer : string :=
  js_literal
    [ "impl&lt;T, A, H, U, V&gt; Actor for <a class=";
      "struct";
      " href=";
      "actix_web/struct.HttpServer.html";
      " title=";
      "struct actix_web::HttpServer";
      ">HttpServer</a>&lt;T, A, H, U&gt; <span class=";
      "where fmt-newline";
      ">where<br>&nbsp;&nbsp;&nbsp;&nbsp;A: 'static,<br>&nbsp;&nbsp;&nbsp;&nbsp;T: <a class=";
      "trait";
      " href=";
      "actix_web/server/trait.IoStream.html";
      " title=";
      "trait actix_web::server::IoStream";
      ">IoStream</a>,<br>&nbsp;&nbsp;&nbsp;&nbsp;H: <a class=";
      "trait";
      " href=";
      "actix_web/server/trait.HttpHandler.html";
      " title=";
      "trait actix_web::server::HttpHandler";
      ">HttpHandler</a>,<br>&nbsp;&nbsp;&nbsp;&nbsp;U: <a class=";
      "trait";
      " href=";
      "https://doc.rust-lang.org/nightly/core/iter/traits/trait.IntoIterator.html";
      " title=";
      "trait core::iter::traits::IntoIterator";
      ">IntoIterator</a>&lt;Item = V&gt; + 'static,<br>&nbsp;&nbsp;&nbsp;&nbsp;V: <a class=";
      "trait";
      " href=";
      "actix_web/server/trait.IntoHttpHandler.html";
      " title=";
      "trait actix_web::server::IntoHttpHandler";
      ">IntoHttpHandler</a>&lt;Handler = H&gt;,&nbsp;</span>" ].

(** Lines 1 and 2:
    [var implementors = {}; implementors["actix_web"] = [ ..., ...,];]
    The comma before the closing bracket adds no element. *)
Definition build : M loc :=
  implementors ← new_object;
  entries ← new_array [VString impl_ClientConnector; VString impl_HttpServer];
  set_own implementors "actix_web" (VObject (Arr entries));;
  mret implementors.

(** The state in which an execution starts: the store of the page, and no
    effect yet. *)
Definition init (σ : store) : state := {| sto := σ; log := [] |}.

Section Script.

Variable code : fid → behaviour.

(** Lines 4 to 8.  The member expression [window.register_implementors]
    is evaluated once for the test and once more for the call, which is
    a method call on [window]. *)
Definition register (implementors : loc) : M unit :=
  test ← get_global "register_implementors";
  if to_boolean test then
    hook ← get_global "register_implementors";
    call code hook (VObject Window) [VObject (Obj implementors)];;
    mret tt
  else
    set_global "pending_implementors" (VObject (Obj implementors)).

(** The body of the function expression; the function returns nothing,
    so its call evaluates to [undefined]. *)
Definition script : M value :=
  implementors ← build;
  register implementors;;
  mret VUndefined.

(** One execution of the fragment in a page whose store is [σ]. *)
Definition run (σ : store) : result value := script (init σ).

End Script.

(** ** Observations *)

(** The state a computation ends in; for a call that does not return, the
    state in which the call was made. *)
Definition final {A} (r : result A) : state :=
  match r with
  | Done _ s | Fail _ s | Hang s => s
  end.

(** The script's own effects during an execution. *)
Definition trace {A} (r : result A) : list event := log (final r).

Definition terminates {A} (r : result A) : bool :=
  match r with
  | Done _ _ | Fail _ _ => true
  | Hang _ => false
  end.

Definition raises {A} (r : result A) : option thrown :=
  match r with
  | Fail e _ => Some e
  | Done _ _ | Hang _ => None
  end.

(** The calls the script makes: callee, [this] and arguments. *)
Definition hook_calls (t : list event) : list (value * value * list value) :=
  omap (fun e => match e with
                 | ECall f this args => Some (f, this, args)
                 | _ => None
                 end) t.

(** The values the script assigns to [window.pending_implementors]. *)
Definition pending_stores (t : list event) : list value :=
  omap (fun e => match e with
                 | ESetGlobal k v =>
                     if decide (k = "pending_implementors") then Some v else None
                 | _ => None
                 end) t.

(** The properties of [window] the script assigns. *)
Definition global_writes (t : list event) : list string :=
  omap (fun e => match e with
                 | ESetGlobal k _ => Some k
                 | _ => None
                 end) t.

(** The assignments the script makes to properties of ordinary objects. *)
Definition own_writes (t : list event) : list (loc * string * value) :=
  omap (fun e => match e with
                 | ESetOwn l k v => Some (l, k, v)
                 | _ => None
                 end) t.

(** The number of registration effects of an execution: calls made and
    assignments to the pending variable. *)
Definition registrations (t : list event) : nat :=
  length (hook_calls t) + length (pending_stores t).

(** The result of a call, as [call] turns the callee's outcome into it. *)
Definition of_outcome (o : outcome) (s : state) : result value :=
  match o with
  | Returns v σ => Done v {| sto := σ; log := log s |}
  | Throws e σ => Fail e {| sto := σ; log := log s |}
  | Diverges => Hang s
  end.

(** The script discards the value the hook returns. *)
Definition discard (r : result value) : result value :=
  match r with
  | Done _ s => Done VUndefined s
  | Fail e s => Fail e s
  | Hang s => Hang s
  end.

(** What the script finds in [window.register_implementors]. *)
Definition hook_of (σ : store) : value := read_global "register_implementors" σ.

(** The contents of an index object: for each of its keys, the elements of
    the array stored under it ([None] under a key that holds no array). *)
Definition snapshot (σ : store) (v : value)
  : option (gmap string (option (list value))) :=
  match v with
  | VObject (Obj l) =>
      match objects σ !! l with
      | Some props =>
          Some ((fun x => match x with
                          | VObject (Arr a) => arrays σ !! a
                          | _ => None
                          end) <$> props)
      | None => None
      end
  | _ => None
  end.

(** The index the script builds. *)
Definition implementors_index : gmap string (option (list value)) :=
  {[ "actix_web" := Some [VString impl_ClientConnector; VString impl_HttpServer] ]}.

(** The three kinds of value the script can find in the hook. *)
Inductive hook_kind : Type := Absent | Callable | NotCallable.

Definition classify (v : value) : hook_kind :=
  if to_boolean v then
    if is_callable v then Callable else NotCallable
  else Absent.

(** The entries the index object [o] holds under the key [k]. *)
Definition entries_under (σ : store) (o : value) (k : string) : option (list value) :=
  match snapshot σ o with
  | Some index =>
      match index !! k with
      | Some (Some entries) => Some entries
      | _ => None
      end
  | None => None
  end.

(** The script's own effects after the construction, by the kind of hook
    it finds. *)
Definition registration_events (hook m : value) : list event :=
  match classify hook with
  | Absent => [ESetGlobal "pending_implementors" m]
  | Callable => [ECall hook (VObject Window) [m]]
  | NotCallable => []
  end.

(** The two ways of delivering the index [m]: the hook is called once,
    on [window], with [m] as its only argument, and nothing is assigned to
    the pending variable; or [m] is assigned once to the pending variable
    and nothing is called. *)
Definition delivered_to_hook (t : list event) (hook m : value) : Prop :=
  hook_calls t = [(hook, VObject Window, [m])] ∧ pending_stores t = [].

Definition left_pending (t : list event) (m : value) : Prop :=
  hook_calls t = [] ∧ pending_stores t = [m].

(** A function that leaves [window.pending_implementors] as it finds it. *)
Definition preserves_pending (b : behaviour) : Prop :=
  ∀ this args σ,
    match b this args σ with
    | Returns _ σ' | Throws _ σ' =>
        globals σ' !! "pending_implementors" = globals σ !! "pending_implementors"
    | Diverges => True
    end.

(** What an execution delivers, by content: the contents of the arguments
    of each call and of each value assigned to the pending variable, read
    in the store the construction has left (the script changes no object
    afterwards). *)
Definition effect (code : fid → behaviour) (σ : store)
  : list (list (option (gmap string (option (list value)))))
    * list (option (gmap string (option (list value)))) :=
  let σ1 := sto (final (build (init σ))) in
  let t := trace (run code σ) in
  (map (fun c => map (snapshot σ1) (snd c)) (hook_calls t),
   map (snapshot σ1) (pending_stores t)).

(** ** Reading an entry *)

Definition newline : string := String "010"%char EmptyString.

Fixpoint contains (needle hay : string) : bool :=
  String.prefix needle hay ||
  match hay with
  | EmptyString => false
  | String _ rest => contains needle rest
  end.

Fixpoint skip (n : nat) (s : string) : string :=
  match n, s with
  | S k, String _ rest => skip k rest
  | _, _ => s
  end.

(** What follows the first occurrence of [mark] in [s]. *)
Fixpoint after (mark s : string) : option string :=
  if String.prefix mark s then Some (skip (String.length mark) s)
  else match s with
       | EmptyString => None
       | String _ rest => after mark rest
       end.

(** What precedes the first occurrence of [mark] in [s]. *)
Fixpoint before (mark s : string) : option string :=
  if String.prefix mark s then Some EmptyString
  else match s with
       | EmptyString => None
       | String c rest => String c <$> before mark rest
       end.

Definition between (opening closing s : string) : option string :=
  match after opening s with
  | Some rest => before closing rest
  | None => None
  end.

(** The segments of [s] between the occurrences of [sep]. *)
Fixpoint split_from (sep : string) (pending : nat) (cur s : string) : list string :=
  match s with
  | EmptyString => [cur]
  | String c rest =>
      match pending with
      | S k => split_from sep k cur rest
      | O =>
          if String.prefix sep s
          then cur :: split_from sep (String.length sep - 1) EmptyString rest
          else split_from sep 0 (cur +:+ String c EmptyString) rest
      end
  end.

Definition split_on (sep s : string) : list string := split_from sep 0 EmptyString s.

(** The text a browser shows for a fragment of HTML: tags are dropped, a
    line break starts a new line, character references are replaced by
    the character they name (a no-break space by a space). *)
Inductive mode : Type :=
  | Text
  | Tag (name : string)
  | Reference (name : string).

Definition character (name : string) : string :=
  if String.eqb name "lt" then "<"
  else if String.eqb name "gt" then ">"
  else if String.eqb name "amp" then "&"
  else if String.eqb name "quot" then dquote
  else if String.eqb name "nbsp" then " "
  else "&" +:+ name +:+ ";".

Fixpoint render_in (m : mode) (s : string) : string :=
  match s with
  | EmptyString => EmptyString
  | String c rest =>
      match m with
      | Text =>
          if Ascii.eqb c "<" then render_in (Tag EmptyString) rest
          else if Ascii.eqb c "&" then render_in (Reference EmptyString) rest
          else String c (render_in Text rest)
      | Tag name =>
          if Ascii.eqb c ">"
          then (if String.eqb name "br" then newline else EmptyString)
               +:+ render_in Text rest
          else render_in (Tag (name +:+ String c EmptyString)) rest
      | Reference name =>
          if Ascii.eqb c ";" then character name +:+ render_in Text rest
          else render_in (Reference (name +:+ String c EmptyString)) rest
      end
  end.

Definition render (s : string) : string := render_in Text s.

(** The item an entry links to first, as the [title] of the link gives
    it: its kind and its path. *)
Definition linked_item (s : string) : option (string * list string) :=
  match between ("title=" +:+ dquote) dquote s with
  | Some title =>
      match before " " title, after " " title with
      | Some kind, Some path => Some (kind, split_on "::" path)
      | _, _ => None
      end
  | None => None
  end.

(** The parts of the rendered header [impl<params> Trait for Type...]. *)
Definition impl_params (text : string) : list string :=
  match between "impl<" ">" text with
  | Some ps => if String.prefix "impl<" text then split_on ", " ps else []
  | None => []
  end.

Definition impl_trait (text : string) : option string :=
  match (if String.prefix "impl<" text then after "> " text else after "impl " text) with
  | Some rest => before " for " rest
  | None => None
  end.

Definition is_ident_char (c : ascii) : bool :=
  let n := nat_of_ascii c in
  ((48 <=? n) && (n <=? 57) || (65 <=? n) && (n <=? 90)
   || (97 <=? n) && (n <=? 122) || (n =? 95))%nat.

Fixpoint ident (s : string) : string :=
  match s with
  | String c rest => if is_ident_char c then String c (ident rest) else EmptyString
  | EmptyString => EmptyString
  end.

Definition impl_type (text : string) : option string :=
  ident <$> after " for " text.

(** The parameter [x] has a bound in the [where] clause. *)
Definition bounded (text x : string) : bool :=
  match after " where" text with
  | Some clause => contains (" " +:+ x +:+ ": ") clause
  | None => false
  end.


(** The entry shows the type its link names, and every parameter of the
    [impl] has a bound in its [where] clause. *)
Definition describes_implementor (e : string) : bool :=
  let text := render e in
  String.prefix "impl" text
  && match impl_type text, linked_item e with
     | Some shown, Some (_, path) => bool_decide (last path = Some shown)
     | _, _ => false
     end
  && forallb (bounded text) (impl_params text).

(** The trait a fragment is about, as the path of the fragment gives it:
    [implementors/<crate>/<modules>/trait.<Trait>.js]. *)
Definition fragment_path : string := "implementors/actix/actor/trait.Actor.js".

Definition trait_of_fragment (path : string) : option (list string) :=
  match after "implementors/" path with
  | Some rest =>
      let segments := split_on "/" rest in
      match last segments with
      | Some file =>
          match between "trait." ".js" file with
          | Some name => Some (take (length segments - 1) segments ++ [name])
          | None => None
          end
      | None => None
      end
  | None => None
  end.

(** [k] names the trait whose implementors the entry [e] lists: it is a
    qualified path, [crate::...::Trait], whose last segment is the trait of
    the [impl]. *)
Definition names_trait_of (k e : string) : Prop :=
  2 ≤ length (split_on "::" k) ∧ last (split_on "::" k) = impl_trait (render e).

(** Every key of the index object [o] names the trait of the entries
    under it. *)
Definition keys_name_traits (σ : store) (o : value) : Prop :=
  ∀ k es e, entries_under σ o k = Some es → VString e ∈ es → names_trait_of k e.

(** ** Sample pages *)

(** A page in which every function returns at once and changes nothing. *)
Definition quiet : fid → behaviour := fun _ _ _ σ => Returns VUndefined σ.

(** A page in which every function throws. *)
Definition throwing : fid → behaviour :=
  fun _ _ _ σ => Throws (Raised (VString "no implementors list")) σ.

(** A page in which no function returns. *)
Definition looping : fid → behaviour := fun _ _ _ _ => Diverges.

Definition empty_page : store := {| globals := ∅; objects := ∅; arrays := ∅ |}.

(** A page whose script has set [window.register_implementors] to [hook]. *)
Definition page_with (hook : value) : store :=
  write_global "register_implementors" hook empty_page.

(** A page in which [window.register_implementors] is an ordinary object. *)
Definition page_with_object : store :=
  {| globals := {[ "register_implementors" := VObject (Obj 1%positive) ]};
     objects := {[ 1%positive := ∅ ]};
     arrays := ∅ |}.

(** A page without the hook, in which an earlier fragment has left an array
    in [window.pending_implementors]. *)
Definition page_with_queue : store :=
  {| globals := {[ "pending_implementors" := VObject (Arr 1%positive) ]};
     objects := ∅;
     arrays := {[ 1%positive := [VString "earlier"] ]} |}.


(** ** Loading the fragment again *)

(** The values [if] takes for false. *)
Definition falsy_values : list value :=
  [ VUndefined; VNull; VBool false;
    VNumber (S754_zero false); VNumber (S754_zero true); VNumber S754_nan;
    VBigInt 0; VString EmptyString ].

(** The store an execution of the fragment leaves. *)
Definition load (code : fid → behaviour) (σ : store) : store :=
  sto (final (run code σ)).

(** The store after the fragment has been loaded [n] times in a row. *)
Definition loads (code : fid → behaviour) (n : nat) (σ : store) : store :=
  Nat.iter n (load code) σ.

(** Two behaviours that differ at most in the value returned. *)
Definition same_but_returned (b b' : behaviour) : Prop :=
  ∀ this args σ,
    match b this args σ, b' this args σ with
    | Returns _ σ1, Returns _ σ2 => σ1 = σ2
    | Throws e1 σ1, Throws e2 σ2 => e1 = e2 ∧ σ1 = σ2
    | Diverges, Diverges => True
    | _, _ => False
    end.

(** A page in which every function returns [true] and changes nothing. *)
Definition answering : fid → behaviour := fun _ _ _ σ => Returns (VBool true) σ.

(** * The session handler of the guide [guide/src/qs_10.md]

    The handler [index] of the section on user sessions counts the visits
    of a user in the session of the request.  The session middleware is
    not part of the guide: its two operations are parameters of the
    handler, and so is the choice of the build to check arithmetic
    overflow. *)

(** [Result<T, E>] *)
Inductive Result (T E : Type) : Type :=
  | Ok (t : T)
  | Err (e : E).

Arguments Ok {T E} t.
Arguments Err {T E} e.

(** [i32] *)
Definition i32_MIN : Z := (-2147483648)%Z.
Definition i32_MAX : Z := 2147483647%Z.

Definition is_i32 (z : Z) : bool := ((i32_MIN <=? z) && (z <=? i32_MAX))%Z.

(** The two's complement value of [z] in 32 bits. *)
Definition wrapping (z : Z) : Z := ((z - i32_MIN) mod 2 ^ 32 + i32_MIN)%Z.

(** [a + b] at [i32]: when the sum does not fit, a build with overflow
    checks panics and a build without them wraps around. *)
Definition add_i32 (overflow_checks : bool) (a b : Z) : option Z :=
  if is_i32 (a + b) then Some (a + b)%Z
  else if overflow_checks then None
  else Some (wrapping (a + b)).

(** [{}] for an [i32] *)
Definition show_i32 (z : Z) : string := NilZero.string_of_int (Z.to_int z).

(** What the request carries and the handler can change: the session, and
    the standard output of the process. *)
Record world (Sess : Type) : Type := World {
  session : Sess;
  stdout : list string
}.

Arguments World {Sess} session stdout.
Arguments session {Sess} w.
Arguments stdout {Sess} w.

(** How a step of the handler ends: with a value, with the early return of
    an error by [?], or with a panic. *)
Inductive step (E A : Type) : Type :=
  | Next (a : A)
  | Raise (e : E)
  | Abort (message : string).

Arguments Next {E A} a.
Arguments Raise {E A} e.
Arguments Abort {E A} message.

Definition Handler (Sess E A : Type) : Type := world Sess → step E A * world Sess.

#[export] Instance Handler_ret {Sess E} : MRet (Handler Sess E) :=
  fun A (a : A) w => (Next a, w).

#[export] Instance Handler_bind {Sess E} : MBind (Handler Sess E) :=
  fun A B (k : A → Handler Sess E B) (m : Handler Sess E A) w =>
    match m w with
    | (Next a, w') => k a w'
    | (Raise e, w') => (Raise e, w')
    | (Abort message, w') => (Abort message, w')
    end.

(** [req.session().op(...)?] *)
Definition try_session {Sess E A} (op : Sess → Result A E * Sess) : Handler Sess E A :=
  fun w =>
    match op (session w) with
    | (Ok a, s) => (Next a, {| session := s; stdout := stdout w |})
    | (Err e, s) => (Raise e, {| session := s; stdout := stdout w |})
    end.

(** [println!(...)] *)
Definition println {Sess E} (line : string) : Handler Sess E unit :=
  fun w => (Next tt, {| session := session w; stdout := stdout w ++ [line +:+ newline] |}).

(** [a + b] *)
Definition add {Sess E} (overflow_checks : bool) (a b : Z) : Handler Sess E Z :=
  fun w =>
    match add_i32 overflow_checks a b with
    | Some sum => (Next sum, w)
    | None => (Abort "attempt to add with overflow", w)
    end.

Section Index.

Context {Sess E : Type}.

(** [Session::get::<i32>] and [Session::set]. *)
Variable session_get : string → Sess → Result (option Z) E * Sess.
Variable session_set : string → Z → Sess → Result unit E * Sess.

Variable overflow_checks : bool.

Definition index : Handler Sess E string :=
  found ← try_session (session_get "counter");
  match found with
  | Some count =>
      println ("SESSION value: " +:+ show_i32 count);;
      next ← add overflow_checks count 1;
      try_session (session_set "counter" next)
  | None =>
      try_session (session_set "counter" 1%Z)
  end;;
  mret "Welcome!".

(** [n] calls of the handler, each on the session and the output the call
    before it has left, all of them answered; [None] when one of them
    returns an error or panics. *)
Fixpoint visits (n : nat) (w : world Sess) : option (world Sess) :=
  match n with
  | O => Some w
  | S n' =>
      match index w with
      | (Next _, w') => visits n' w'
      | _ => None
      end
  end.

End Index.

(** What the handler prints for a counter. *)
Definition printed (count : Z) : string :=
  ("SESSION value: " +:+ show_i32 count) +:+ newline.

(** A session kept in a map, whose operations never fail. *)
Definition map_get (k : string) (s : gmap string Z)
  : Result (option Z) Empty_set * gmap string Z :=
  (Ok (s !! k), s).

Definition map_set (k : string) (v : Z) (s : gmap string Z)
  : Result unit Empty_set * gmap string Z :=
  (Ok tt, <[k := v]> s).

(** * Properties of the construction *)

Lemma build_eq (s : state) :
  let l := fresh (dom (objects (sto s))) in
  let a := fresh (dom (arrays (sto s))) in
  build s =
  Done l {| sto := {| globals := globals (sto s);
                      objects := <[l := {[ "actix_web" := VObject (Arr a) ]}]>
                                   (objects (sto s));
                      arrays := <[a := [VString impl_ClientConnector;
                                        VString impl_HttpServer]]>
                                  (arrays (sto s)) |};
            log := log s ++ [ESetOwn l "actix_web" (VObject (Arr a))] |}.
Proof.
  intros l a.
  unfold build, mbind, M_bind, mret, M_ret, new_object, new_array, set_own.
  unfold alloc_object, alloc_array, write_own, emit.
  cbn [sto log globals objects arrays]. fold l a.
  by rewrite alter_insert_eq, insert_empty.
Qed.

(** The construction always completes, touches no property of [window] and
    no object or array that existed before. *)
Lemma build_init (σ : store) :
  ∃ l a s1,
    build (init σ) = Done l s1 ∧
    log s1 = [ESetOwn l "actix_web" (VObject (Arr a))] ∧
    globals (sto s1) = globals σ ∧
    objects σ !! l = None ∧
    arrays σ !! a = None ∧
    objects (sto s1) = <[l := {[ "actix_web" := VObject (Arr a) ]}]> (objects σ) ∧
    arrays (sto s1) = <[a := [VString impl_ClientConnector; VString impl_HttpServer]]>
                        (arrays σ).
Proof.
  eexists _, _, _. split; [apply build_eq |]. cbn.
  repeat split; apply not_elem_of_dom, is_fresh.
Qed.

(** Two descriptions of the same construction agree. *)
Ltac same_build :=
  match goal with
  | H1 : build ?s = Done ?l1 ?s1, H2 : build ?s = Done ?l2 ?s2 |- _ =>
      let E := fresh in
      assert (E : Done l2 s2 = Done l1 s1) by (by rewrite <- H1, <- H2);
      injection E as -> ->; clear H2
  end.

(** The object the construction returns holds the index. *)
Lemma build_snapshot (σ : store) (l : loc) (s1 : state) :
  build (init σ) = Done l s1 →
  snapshot (sto s1) (VObject (Obj l)) = Some implementors_index.
Proof.
  intros Hb.
  destruct (build_init σ) as (l' & a & s1' & Hb' & _ & _ & _ & _ & Ho & Ha).
  same_build. unfold snapshot. rewrite Ho, lookup_insert_eq.
  by rewrite map_fmap_singleton, Ha, lookup_insert_eq.
Qed.

Lemma build_entries (σ : store) (l : loc) (s1 : state) (k : string) (es : list value) :
  build (init σ) = Done l s1 →
  entries_under (sto s1) (VObject (Obj l)) k = Some es →
  k = "actix_web" ∧ es = [VString impl_ClientConnector; VString impl_HttpServer].
Proof.
  intros Hb. unfold entries_under. rewrite (build_snapshot σ l s1 Hb).
  unfold implementors_index.
  destruct (decide (k = "actix_web")) as [-> | Hk].
  - rewrite lookup_singleton_eq. by intros [= <-].
  - by rewrite lookup_singleton_ne.
Qed.

(** * The run of the script, case by case *)

Lemma hook_of_globals (σ1 σ2 : store) :
  globals σ1 = globals σ2 → hook_of σ1 = hook_of σ2.
Proof. unfold hook_of, read_global. by intros ->. Qed.

Lemma classify_absent (v : value) : to_boolean v = false → classify v = Absent.
Proof. unfold classify. by intros ->. Qed.

Lemma classify_callable (v : value) : is_callable v = true → classify v = Callable.
Proof. by destruct v as [| | | | | | |[]]. Qed.

Lemma classify_not_callable (v : value) :
  to_boolean v = true → is_callable v = false → classify v = NotCallable.
Proof. unfold classify. by intros -> ->. Qed.

Lemma hook_cases (v : value) :
  to_boolean v = false ∨
  (∃ f, v = VObject (Fun f)) ∨
  (to_boolean v = true ∧ is_callable v = false).
Proof.
  destruct (to_boolean v) eqn:Ht; [right | by left].
  destruct v as [| | | | | | |[| | |f]]; eauto.
Qed.

Section Run.

Variable code : fid → behaviour.

Lemma register_eq (l : loc) (s : state) :
  register code l s =
  if to_boolean (hook_of (sto s)) then
    match call code (hook_of (sto s)) (VObject Window) [VObject (Obj l)] s with
    | Done _ s' => Done tt s'
    | Fail e s' => Fail e s'
    | Hang s' => Hang s'
    end
  else
    Done tt {| sto := write_global "pending_implementors" (VObject (Obj l)) (sto s);
               log := log s ++ [ESetGlobal "pending_implementors" (VObject (Obj l))] |}.
Proof.
  unfold register, mbind, M_bind, get_global, hook_of.
  by destruct (to_boolean _).
Qed.

Variable σ : store.

Lemma run_eq :
  ∃ l s1, build (init σ) = Done l s1 ∧ hook_of (sto s1) = hook_of σ ∧
    run code σ =
    match register code l s1 with
    | Done _ s' => Done VUndefined s'
    | Fail e s' => Fail e s'
    | Hang s' => Hang s'
    end.
Proof.
  pose proof (build_eq (init σ)) as H. cbn zeta in H.
  eexists _, _. split; [exact H |]. split; [by apply hook_of_globals |].
  unfold run, script. unfold mbind at 1. unfold M_bind at 1.
  rewrite H. unfold mbind, M_bind.
  by destruct (register _ _ _).
Qed.

(** The hook is falsy: the index is left in the pending variable. *)
Lemma run_absent :
  to_boolean (hook_of σ) = false →
  ∃ l s1, build (init σ) = Done l s1 ∧
    run code σ =
    Done VUndefined
      {| sto := write_global "pending_implementors" (VObject (Obj l)) (sto s1);
         log := log s1 ++ [ESetGlobal "pending_implementors" (VObject (Obj l))] |}.
Proof.
  intros Hf. destruct run_eq as (l & s1 & Hb & Hh & ->).
  exists l, s1. split; [done |].
  by rewrite register_eq, Hh, Hf.
Qed.

(** The hook is a function: it is called, in the store the construction
    has left, and the script completes as the call does. *)
Lemma run_callable (f : fid) :
  hook_of σ = VObject (Fun f) →
  ∃ l s1, build (init σ) = Done l s1 ∧
    run code σ =
    discard (of_outcome (code f (VObject Window) [VObject (Obj l)] (sto s1))
               (emit (ECall (hook_of σ) (VObject Window) [VObject (Obj l)]) s1)).
Proof.
  intros Hf. destruct run_eq as (l & s1 & Hb & Hh & ->).
  exists l, s1. split; [done |].
  rewrite register_eq, Hh, Hf. cbn [to_boolean call emit sto log].
  by destruct (code f _ _ _).
Qed.

(** The hook is truthy and not a function: the call raises a [TypeError]
    and nothing is delivered. *)
Lemma run_not_callable :
  to_boolean (hook_of σ) = true →
  is_callable (hook_of σ) = false →
  ∃ l s1, build (init σ) = Done l s1 ∧
    run code σ = Fail (TypeError_not_a_function (hook_of σ)) s1.
Proof.
  intros Ht Hc. destruct run_eq as (l & s1 & Hb & Hh & ->).
  exists l, s1. split; [done |].
  rewrite register_eq, Hh, Ht. unfold call.
  by destruct (hook_of σ) as [| | | | | | |[]].
Qed.

End Run.

(** Case analysis on what the script finds in the hook, with the run
    rewritten accordingly. *)
Ltac run_cases code σ :=
  let l := fresh "l" in
  let s := fresh "s" in
  let Hb := fresh "Hb" in
  destruct (hook_cases (hook_of σ)) as [Hf | [[f Hh] | [Ht Hc]]];
  [ destruct (run_absent code σ Hf) as (l & s & Hb & ->)
  | destruct (run_callable code σ f Hh) as (l & s & Hb & ->)
  | destruct (run_not_callable code σ Ht Hc) as (l & s & Hb & ->) ];
  try same_build.

(** The script's own effects: the assignment that fills the index, then
    what the hook calls for. *)
Lemma run_trace (code : fid → behaviour) (σ : store) :
  ∃ l a s1,
    build (init σ) = Done l s1 ∧
    log s1 = [ESetOwn l "actix_web" (VObject (Arr a))] ∧
    trace (run code σ) = log s1 ++ registration_events (hook_of σ) (VObject (Obj l)).
Proof.
  destruct (build_init σ) as (l & a & s1 & Hb & Hlog & _).
  exists l, a, s1. do 2 (split; [done |]). unfold registration_events.
  run_cases code σ.
  - by rewrite classify_absent.
  - rewrite classify_callable by (by rewrite Hh). unfold trace.
    by destruct (code f _ _ _).
  - rewrite classify_not_callable by done. unfold trace. cbn.
    by rewrite app_nil_r.
Qed.

(** What the script is seen to do, by the kind of hook it finds. *)
Lemma run_observed (code : fid → behaviour) (σ : store) :
  ∃ l a s1,
    build (init σ) = Done l s1 ∧
    own_writes (log s1) = [(l, "actix_web", VObject (Arr a))] ∧
    own_writes (trace (run code σ)) = own_writes (log s1) ∧
    hook_calls (trace (run code σ)) =
      match classify (hook_of σ) with
      | Callable => [(hook_of σ, VObject Window, [VObject (Obj l)])]
      | _ => []
      end ∧
    pending_stores (trace (run code σ)) =
      match classify (hook_of σ) with
      | Absent => [VObject (Obj l)]
      | _ => []
      end ∧
    global_writes (trace (run code σ)) =
      match classify (hook_of σ) with
      | Absent => ["pending_implementors"]
      | _ => []
      end ∧
    length (trace (run code σ)) =
      match classify (hook_of σ) with
      | NotCallable => 1
      | _ => 2
      end.
Proof.
  destruct (run_trace code σ) as (l & a & s1 & Hb & Hlog & ->).
  exists l, a, s1. split; [done |]. rewrite Hlog. unfold registration_events.
  by destruct (classify _).
Qed.

(** * Delivery of the index *)

(** C1, as stated, fails: in a page where [window.register_implementors]
    is [true], the script neither calls a hook nor assigns the pending
    variable; the call of [true] raises a [TypeError]. *)
Lemma truthy_hook_delivers_nothing :
  ¬ ∃ m, delivered_to_hook (trace (run quiet (page_with (VBool true)))) (VBool true) m
       ∨ left_pending (trace (run quiet (page_with (VBool true)))) m.
Proof.
  intros [m [[H _] | [_ H]]]; vm_compute in H; discriminate H.
Qed.

(** C1, amended: when the hook is a function it is called exactly once, on
    [window], with the index as its only argument, and the pending variable
    is not assigned; when the hook is falsy the index is assigned to the
    pending variable, which then holds it, and nothing is called; when the
    hook is truthy but not a function neither happens and the script raises
    a [TypeError].  So exactly one of the two deliveries occurs in every
    page whose hook is falsy or callable. *)
Theorem hook_or_pending (code : fid → behaviour) (σ : store) :
  ∃ l s1, build (init σ) = Done l s1 ∧
    let m := VObject (Obj l) in
    let r := run code σ in
    (is_callable (hook_of σ) = true →
       delivered_to_hook (trace r) (hook_of σ) m) ∧
    (to_boolean (hook_of σ) = false →
       left_pending (trace r) m ∧
       globals (sto (final r)) !! "pending_implementors" = Some m) ∧
    (to_boolean (hook_of σ) = true → is_callable (hook_of σ) = false →
       hook_calls (trace r) = [] ∧ pending_stores (trace r) = [] ∧
       raises r = Some (TypeError_not_a_function (hook_of σ))).
Proof.
  destruct (run_observed code σ) as (l & a & s1 & Hb & _ & _ & Hcalls & Hpend & _).
  exists l, s1. split; [done |]. cbn zeta. unfold delivered_to_hook, left_pending.
  rewrite Hcalls, Hpend. split; [| split].
  - intros Hc. by rewrite classify_callable.
  - intros Hf. rewrite classify_absent by done. split; [done |].
    destruct (run_absent code σ Hf) as (l' & s' & Hb' & ->). same_build.
    cbn. apply lookup_insert_eq.
  - intros Ht Hc. rewrite classify_not_callable by done. do 2 (split; [done |]).
    by destruct (run_not_callable code σ Ht Hc) as (l' & s' & Hb' & ->).
Qed.

(** In a page whose hook is a function, the hook receives the index. *)
Lemma hook_or_pending_witness :
  ∃ l s1, build (init (page_with (VObject (Fun 0)))) = Done l s1 ∧
    delivered_to_hook (trace (run quiet (page_with (VObject (Fun 0)))))
      (VObject (Fun 0)) (VObject (Obj l)).
Proof.
  destruct (hook_or_pending quiet (page_with (VObject (Fun 0))))
    as (l & s1 & Hb & Hcall & _).
  exists l, s1. split; [exact Hb |]. apply Hcall. reflexivity.
Defined.

(** * Write-once *)

(** C5: the only assignment to a property of an object that the script ever
    makes is the one that fills the index during its construction; what is
    passed to the hook or assigned to the pending variable is that very
    object; the hook is called in the store the construction has left, and
    in the fallback the objects and arrays are as the construction has left
    them, so that the pending variable refers to the index as built. *)
Theorem index_write_once (code : fid → behaviour) (σ : store) :
  ∃ l s1, build (init σ) = Done l s1 ∧
    let m := VObject (Obj l) in
    let r := run code σ in
    own_writes (trace r) = own_writes (log s1) ∧
    length (own_writes (trace r)) = 1 ∧
    (∀ c, c ∈ hook_calls (trace r) → c.2 = [m]) ∧
    (∀ v, v ∈ pending_stores (trace r) → v = m) ∧
    snapshot (sto s1) m = Some implementors_index ∧
    (∀ f, hook_of σ = VObject (Fun f) →
       r = discard (of_outcome (code f (VObject Window) [m] (sto s1))
                      (emit (ECall (hook_of σ) (VObject Window) [m]) s1))) ∧
    (to_boolean (hook_of σ) = false →
       objects (sto (final r)) = objects (sto s1) ∧
       arrays (sto (final r)) = arrays (sto s1) ∧
       globals (sto (final r)) !! "pending_implementors" = Some m ∧
       snapshot (sto (final r)) m = Some implementors_index).
Proof.
  destruct (run_observed code σ)
    as (l & a & s1 & Hb & Hown1 & Hown & Hcalls & Hpend & _).
  pose proof (build_snapshot σ l s1 Hb) as Hsnap.
  exists l, s1. split; [done |]. cbn zeta.
  rewrite Hown, Hown1, Hcalls, Hpend.
  do 2 (split; [done |]). split; [| split; [| split; [done |]; split]].
  - intros c. destruct (classify _); [by intros ?%elem_of_nil | | by intros ?%elem_of_nil].
    by intros ->%list_elem_of_singleton.
  - intros v. destruct (classify _); [| by intros ?%elem_of_nil ..].
    by intros ->%list_elem_of_singleton.
  - intros f Hh. destruct (run_callable code σ f Hh) as (l' & s' & Hb' & ->).
    by same_build.
  - intros Hf. destruct (run_absent code σ Hf) as (l' & s' & Hb' & ->).
    same_build. cbn. do 2 (split; [done |]).
    split; [apply lookup_insert_eq | done].
Qed.

(** In a page without the hook, the pending variable refers to the index
    as built. *)
Lemma index_write_once_witness :
  ∃ l, globals (sto (final (run quiet empty_page))) !! "pending_implementors"
       = Some (VObject (Obj l)) ∧
       snapshot (sto (final (run quiet empty_page))) (VObject (Obj l))
       = Some implementors_index.
Proof.
  destruct (index_write_once quiet empty_page)
    as (l & s1 & _ & _ & _ & _ & _ & _ & _ & Hfallback).
  destruct (Hfallback eq_refl) as (_ & _ & Hp & Hs).
  exists l. split; [exact Hp | exact Hs].
Defined.

(** * Termination and errors *)

(** C6, as stated, fails: in a page where [window.register_implementors]
    is an ordinary object, the execution ends without any registration
    effect. *)
Lemma object_hook_registers_nothing :
  ¬ (terminates (run quiet page_with_object) = true ∧
     registrations (trace (run quiet page_with_object)) = 1).
Proof. intros [_ H]. vm_compute in H. discriminate H. Qed.

(** C6, amended: the script is one straight-line pass: it makes at most
    one call and has at most two effects of its own, so it fails to
    terminate only when the hook is a function whose call does not return;
    it performs exactly one registration effect when the hook is falsy or
    callable, and none when the hook is truthy but not callable. *)
Theorem single_pass (code : fid → behaviour) (σ : store) :
  ∃ l s1, build (init σ) = Done l s1 ∧
    let r := run code σ in
    (terminates r = false ↔
       ∃ f, hook_of σ = VObject (Fun f) ∧
            code f (VObject Window) [VObject (Obj l)] (sto s1) = Diverges) ∧
    length (hook_calls (trace r)) ≤ 1 ∧
    length (trace r) ≤ 2 ∧
    (registrations (trace r) = 1 ↔
       to_boolean (hook_of σ) = false ∨ is_callable (hook_of σ) = true) ∧
    (registrations (trace r) = 0 ↔
       to_boolean (hook_of σ) = true ∧ is_callable (hook_of σ) = false).
Proof.
  destruct (run_observed code σ)
    as (l & a & s1 & Hb & _ & _ & Hcalls & Hpend & _ & Hlen).
  exists l, s1. split; [done |]. cbn zeta. unfold registrations.
  rewrite Hcalls, Hpend, Hlen. split; [| split; [| split; [| split]]].
  - run_cases code σ.
    + split; [done |]. intros (f & Hh & _). by rewrite Hh in Hf.
    + split.
      * intros Hd. exists f. split; [done |]. by destruct (code f _ _ _).
      * intros (f' & Hh' & Hd). rewrite Hh in Hh'. injection Hh' as <-.
        by rewrite Hd.
    + split; [done |]. intros (f & Hh & _). by rewrite Hh in Hc.
  - destruct (classify _); cbn; lia.
  - destruct (classify _); lia.
  - destruct (hook_cases (hook_of σ)) as [Hf | [[f Hh] | [Ht Hc]]].
    + rewrite classify_absent by done. split; [by left | done].
    + rewrite Hh. split; [by right | done].
    + rewrite classify_not_callable by done. rewrite Ht, Hc. cbn.
      split; [done | by intros [|]].
  - destruct (hook_cases (hook_of σ)) as [Hf | [[f Hh] | [Ht Hc]]].
    + rewrite classify_absent by done. rewrite Hf. cbn.
      split; [done | by intros []].
    + rewrite Hh. cbn. split; [done | by intros []].
    + rewrite classify_not_callable by done. by rewrite Ht, Hc.
Qed.

(** In a page whose hook does not return, the script does not terminate;
    it has made its one call. *)
Lemma single_pass_witness :
  terminates (run looping (page_with (VObject (Fun 0)))) = false ∧
  registrations (trace (run looping (page_with (VObject (Fun 0))))) = 1.
Proof.
  destruct (single_pass looping (page_with (VObject (Fun 0))))
    as (l & s1 & _ & Hterm & _ & _ & Hone & _).
  split.
  - apply Hterm. exists 0. split; reflexivity.
  - apply Hone. right. reflexivity.
Defined.

(** C7, as stated, fails: in a page where [window.register_implementors]
    is a non-empty string, the script raises a [TypeError]. *)
Lemma string_hook_raises :
  raises (run quiet (page_with (VString "later"))) ≠ None.
Proof. vm_compute. discriminate. Qed.

(** C7, amended: the script raises no error when the hook is falsy,
    whatever the pending variable holds; when the hook is a function it
    raises exactly what the call of the hook raises; when the hook is
    truthy but not a function it raises a [TypeError]. *)
Theorem errors_of_script (code : fid → behaviour) (σ : store) :
  ∃ l s1, build (init σ) = Done l s1 ∧
    let r := run code σ in
    (to_boolean (hook_of σ) = false →
       raises r = None ∧ terminates r = true) ∧
    (∀ f, hook_of σ = VObject (Fun f) →
       raises r =
       match code f (VObject Window) [VObject (Obj l)] (sto s1) with
       | Throws e _ => Some e
       | Returns _ _ | Diverges => None
       end) ∧
    (to_boolean (hook_of σ) = true → is_callable (hook_of σ) = false →
       raises r = Some (TypeError_not_a_function (hook_of σ))).
Proof.
  destruct (build_init σ) as (l & a & s1 & Hb & _).
  exists l, s1. split; [done |]. cbn zeta. split; [| split].
  - intros Hf. by destruct (run_absent code σ Hf) as (l' & s' & _ & ->).
  - intros f Hh. destruct (run_callable code σ f Hh) as (l' & s' & Hb' & ->).
    same_build. by destruct (code f _ _ _).
  - intros Ht Hc.
    by destruct (run_not_callable code σ Ht Hc) as (l' & s' & _ & ->).
Qed.

(** In a page without the hook the script raises nothing; in a page whose
    hook throws, the script throws the same. *)
Lemma errors_of_script_witness :
  raises (run quiet page_with_queue) = None ∧
  raises (run throwing (page_with (VObject (Fun 0))))
  = Some (Raised (VString "no implementors list")).
Proof.
  split.
  - destruct (errors_of_script quiet page_with_queue) as (l & s1 & _ & Hf & _).
    apply Hf. reflexivity.
  - destruct (errors_of_script throwing (page_with (VObject (Fun 0))))
      as (l & s1 & _ & _ & Hc & _).
    apply (Hc 0). reflexivity.
Defined.

(** * Frame *)

(** C8: when the hook is present the script assigns no property of
    [window]: the hook is called in a store where the properties of
    [window] are as they were, and [window.pending_implementors] ends as it
    began unless the hook itself changes it; when the hook is absent the
    script calls nothing; in every case the only property of [window] the
    script assigns is [pending_implementors]. *)
Theorem registration_frame (code : fid → behaviour) (σ : store) :
  ∃ l s1, build (init σ) = Done l s1 ∧
    let r := run code σ in
    (to_boolean (hook_of σ) = true →
       global_writes (trace r) = [] ∧
       globals (sto s1) = globals σ ∧
       ((∀ f, hook_of σ = VObject (Fun f) → preserves_pending (code f)) →
        globals (sto (final r)) !! "pending_implementors"
        = globals σ !! "pending_implementors")) ∧
    (to_boolean (hook_of σ) = false → hook_calls (trace r) = []) ∧
    (∀ k, k ∈ global_writes (trace r) → k = "pending_implementors").
Proof.
  destruct (build_init σ) as (l & a & s1 & Hb & _ & Hg & _).
  destruct (run_observed code σ)
    as (l' & a' & s' & Hb' & _ & _ & Hcalls & _ & Hwrites & _).
  same_build. exists l, s1. split; [done |]. cbn zeta.
  rewrite Hcalls, Hwrites. split; [| split].
  - intros Ht. unfold classify. rewrite Ht. split; [by destruct (is_callable _) |].
    split; [done |]. intros Hpres.
    destruct (hook_cases (hook_of σ)) as [Hf | [[f Hh] | [_ Hc]]].
    + by rewrite Ht in Hf.
    + destruct (run_callable code σ f Hh) as (l' & s' & Hb' & ->). same_build.
      specialize (Hpres f Hh (VObject Window) [VObject (Obj l)] (sto s1)).
      destruct (code f _ _ _); cbn; by rewrite <- Hg.
    + destruct (run_not_callable code σ Ht Hc) as (l' & s' & Hb' & ->).
      same_build. cbn. by rewrite Hg.
  - intros Hf. by rewrite classify_absent.
  - intros k. destruct (classify _); [| by intros ?%elem_of_nil ..].
    by intros ->%list_elem_of_singleton.
Qed.

(** In a page whose hook is a function that changes nothing, a value left
    in the pending variable is still there after the script. *)
Lemma registration_frame_witness :
  globals (sto (final (run quiet
    (write_global "register_implementors" (VObject (Fun 0)) page_with_queue))))
    !! "pending_implementors"
  = Some (VObject (Arr 1%positive)).
Proof.
  destruct (registration_frame quiet
              (write_global "register_implementors" (VObject (Fun 0)) page_with_queue))
    as (l & s1 & _ & Hpresent & _).
  destruct (Hpresent eq_refl) as (_ & _ & Hkeep).
  rewrite Hkeep; [reflexivity |].
  intros f _ this args σ. reflexivity.
Defined.

(** * The pending variable *)

(** C9: in the fallback the script assigns the index to
    [window.pending_implementors] by a single plain assignment: the
    properties of [window] afterwards are those before with
    [pending_implementors] set to the index; the execution is the same
    whatever the variable held before; and every array and object of the
    page, a queue left in the variable included, is as it was. *)
Theorem pending_overwritten (code : fid → behaviour) (σ : store) :
  to_boolean (hook_of σ) = false →
  ∃ l s1, build (init σ) = Done l s1 ∧
    let m := VObject (Obj l) in
    let r := run code σ in
    globals (sto (final r)) = <["pending_implementors" := m]> (globals σ) ∧
    pending_stores (trace r) = [m] ∧
    (∀ prior, run code (write_global "pending_implementors" prior σ) = r) ∧
    (∀ a es, arrays σ !! a = Some es → arrays (sto (final r)) !! a = Some es) ∧
    (∀ o props, objects σ !! o = Some props →
                objects (sto (final r)) !! o = Some props).
Proof.
  intros Hf.
  destruct (build_init σ) as (l & a & s1 & Hb & _ & Hg & Hl & Ha & Ho & Har).
  destruct (run_observed code σ) as (l' & a' & s' & Hb' & _ & _ & _ & Hpend & _).
  same_build. exists l, s1. split; [done |]. cbn zeta.
  rewrite Hpend, classify_absent by done.
  assert (Hprior : ∀ prior,
            run code (write_global "pending_implementors" prior σ) = run code σ).
  { intros prior.
    assert (Hf' : to_boolean (hook_of (write_global "pending_implementors" prior σ))
                  = false).
    { unfold hook_of, read_global, write_global. cbn.
      by rewrite lookup_insert_ne. }
    destruct (run_absent code _ Hf') as (l2 & s2 & Hb2 & ->).
    destruct (run_absent code σ Hf) as (l3 & s3 & Hb3 & ->). same_build.
    pose proof (build_eq (init (write_global "pending_implementors" prior σ))) as E2.
    pose proof (build_eq (init σ)) as E1. cbn zeta in E1, E2.
    rewrite Hb2 in E2. rewrite Hb in E1.
    injection E1 as -> ->. injection E2 as -> ->.
    unfold write_global. cbn. by rewrite insert_insert_eq. }
  destruct (run_absent code σ Hf) as (l' & s' & Hb' & Hrun). same_build.
  split; [by rewrite Hrun; cbn; rewrite Hg |]. split; [done |].
  split; [exact Hprior |]. rewrite Hrun. cbn. split.
  - intros a0 es Ha0. rewrite Har, lookup_insert_ne; [done |].
    intros <-. by rewrite Ha in Ha0.
  - intros o props Ho0. rewrite Ho, lookup_insert_ne; [done |].
    intros <-. by rewrite Hl in Ho0.
Qed.

(** In a page where an earlier fragment has left a queue in the pending
    variable, the variable ends up referring to an object, and the queue
    still holds what it held. *)
Lemma pending_overwritten_witness :
  (∃ l, globals (sto (final (run quiet page_with_queue))) !! "pending_implementors"
        = Some (VObject (Obj l))) ∧
  arrays (sto (final (run quiet page_with_queue))) !! 1%positive
  = Some [VString "earlier"].
Proof.
  destruct (pending_overwritten quiet page_with_queue eq_refl)
    as (l & s1 & _ & Hg & _ & _ & Harr & _).
  split.
  - exists l. rewrite Hg. apply lookup_insert_eq.
  - apply Harr. reflexivity.
Defined.

(** * Determinism *)

Lemma effect_eq (code : fid → behaviour) (σ : store) :
  effect code σ =
  match classify (hook_of σ) with
  | Callable => ([[Some implementors_index]], [])
  | Absent => ([], [Some implementors_index])
  | NotCallable => ([], [])
  end.
Proof.
  destruct (run_observed code σ) as (l & a & s1 & Hb & _ & _ & Hcalls & Hpend & _).
  unfold effect. rewrite Hcalls, Hpend, Hb. cbn [final].
  destruct (classify _); cbn [map snd]; by rewrite ?(build_snapshot σ l s1 Hb).
Qed.

(** C10, as stated, fails: a function, [true] and the number [0] are three
    defined values of [window.register_implementors], the first two truthy,
    and the script has three different effects: it calls the hook with the
    index, it delivers nothing (the call raises a [TypeError]), it assigns
    the index to the pending variable. *)
Lemma defined_hooks_differ :
  is_defined (hook_of (page_with (VObject (Fun 0)))) = true ∧
  is_defined (hook_of (page_with (VBool true))) = true ∧
  is_defined (hook_of (page_with (VNumber (S754_zero false)))) = true ∧
  effect quiet (page_with (VObject (Fun 0))) ≠ effect quiet (page_with (VBool true)) ∧
  effect quiet (page_with (VObject (Fun 0)))
  ≠ effect quiet (page_with (VNumber (S754_zero false))).
Proof.
  do 3 (split; [reflexivity |]). rewrite !effect_eq. split; discriminate.
Qed.

(** C10, amended: what the script delivers (the contents of the argument
    passed to the hook and of the value assigned to the pending variable,
    hence the branch taken) is a function only of whether
    [window.register_implementors] is falsy, a function, or truthy but not
    a function; so two executions from equal pages, and more generally from
    pages whose hooks are of the same kind, deliver the same, and the index
    delivered is the same in either branch. *)
Theorem effect_by_hook_kind (code : fid → behaviour) (σ : store) :
  effect code σ =
    match classify (hook_of σ) with
    | Callable => ([[Some implementors_index]], [])
    | Absent => ([], [Some implementors_index])
    | NotCallable => ([], [])
    end ∧
  ∀ code' σ', classify (hook_of σ') = classify (hook_of σ) →
              effect code' σ' = effect code σ.
Proof.
  split; [apply effect_eq |]. intros code' σ' Hk. by rewrite !effect_eq, Hk.
Qed.

(** A page with a queue in the pending variable and the empty page, neither
    with a hook, get the same delivery. *)
Lemma effect_by_hook_kind_witness :
  effect quiet page_with_queue = effect looping empty_page.
Proof.
  apply (proj2 (effect_by_hook_kind looping empty_page)). reflexivity.
Defined.

(** * The index *)

Lemma build_entries_actix_web (σ : store) (l : loc) (s1 : state) :
  build (init σ) = Done l s1 →
  entries_under (sto s1) (VObject (Obj l)) "actix_web"
  = Some [VString impl_ClientConnector; VString impl_HttpServer].
Proof.
  intros Hb. unfold entries_under. by rewrite (build_snapshot σ l s1 Hb).
Qed.

(** C2, as stated, fails: the one key of the index is ["actix_web"], which
    is not a qualified path, and the trait of the entries under it is
    [Actor]. *)
Lemma key_is_not_the_trait :
  ¬ ∀ l s1, build (init empty_page) = Done l s1 →
            keys_name_traits (sto s1) (VObject (Obj l)).
Proof.
  intros H. destruct (build_init empty_page) as (l & a & s1 & Hb & _).
  destruct (H l s1 Hb "actix_web" _ impl_ClientConnector
              (build_entries_actix_web _ l s1 Hb)) as [Hlen _].
  - apply list_elem_of_here.
  - vm_compute in Hlen. lia.
Qed.

(** C2, amended: every key of the index is a string that names the crate
    of the implementors listed under it: each entry under the key is a
    string whose link names an item whose path begins with the key.  The
    trait is not named by the key: it is the trait of the [impl] header of
    every entry, which is the trait the path of the fragment names. *)
Theorem keys_name_crates (σ : store) :
  ∃ l s1, build (init σ) = Done l s1 ∧
    ∀ k es, entries_under (sto s1) (VObject (Obj l)) k = Some es →
      ∀ v, v ∈ es →
        ∃ e kind path,
          v = VString e ∧
          linked_item e = Some (kind, path) ∧
          head path = Some k ∧
          ¬ names_trait_of k e ∧
          Some (impl_trait (render e)) = last <$> trait_of_fragment fragment_path.
Proof.
  destruct (build_init σ) as (l & a & s1 & Hb & _).
  exists l, s1. split; [done |]. intros k es Hes v Hv.
  destruct (build_entries σ l s1 k es Hb Hes) as [-> ->].
  assert (Hnot : ∀ e, ¬ names_trait_of "actix_web" e).
  { intros e [Hlen _]. vm_compute in Hlen. lia. }
  apply elem_of_cons in Hv as [-> | Hv];
    [| apply list_elem_of_singleton in Hv as ->].
  - exists impl_ClientConnector, "struct", ["actix_web"; "client"; "ClientConnector"].
    split; [done |]. split; [by vm_compute |]. split; [done |].
    split; [apply Hnot | by vm_compute].
  - exists impl_HttpServer, "struct", ["actix_web"; "HttpServer"].
    split; [done |]. split; [by vm_compute |]. split; [done |].
    split; [apply Hnot | by vm_compute].
Qed.

(** The first entry of the index built in the empty page links to an item
    of the crate [actix_web]. *)
Lemma keys_name_crates_witness :
  ∃ e kind path,
    linked_item e = Some (kind, path) ∧ head path = Some "actix_web".
Proof.
  destruct (keys_name_crates empty_page) as (l & s1 & Hb & Hkeys).
  destruct (Hkeys "actix_web" _ (build_entries_actix_web _ l s1 Hb)
              (VString impl_ClientConnector) (list_elem_of_here _ _))
    as (e & kind & path & _ & Hitem & Hhead & _).
  exists e, kind, path. split; [exact Hitem | exact Hhead].
Defined.

(** C3: under every key of the index the script stores an array, all of
    whose elements are strings; each of them is an [impl] header that shows
    the name of the implementing type, the one its link names, and that
    gives a bound for every parameter of the [impl]. *)
Theorem entries_are_descriptions (σ : store) :
  ∃ l s1 props, build (init σ) = Done l s1 ∧
    objects (sto s1) !! l = Some props ∧
    ∀ k v, props !! k = Some v →
      ∃ a es,
        v = VObject (Arr a) ∧
        arrays (sto s1) !! a = Some es ∧
        Forall (fun x => ∃ e, x = VString e ∧ describes_implementor e = true) es.
Proof.
  destruct (build_init σ) as (l & a & s1 & Hb & _ & _ & _ & _ & Ho & Ha).
  exists l, s1, {[ "actix_web" := VObject (Arr a) ]}. split; [done |].
  split; [by rewrite Ho, lookup_insert_eq |]. intros k v Hk.
  apply lookup_singleton_Some in Hk as [<- <-].
  exists a, [VString impl_ClientConnector; VString impl_HttpServer].
  split; [done |]. split; [by rewrite Ha, lookup_insert_eq |].
  repeat constructor.
  - exists impl_ClientConnector. split; [done | by vm_compute].
  - exists impl_HttpServer. split; [done | by vm_compute].
Qed.

(** The value under ["actix_web"] in the empty page is an array of
    descriptions. *)
Lemma entries_are_descriptions_witness :
  ∃ es, Forall (fun x => ∃ e, x = VString e ∧ describes_implementor e = true) es ∧
        entries_under (sto (final (build (init empty_page)))) (VObject (Obj 1%positive))
          "actix_web" = Some es.
Proof.
  destruct (entries_are_descriptions empty_page) as (l & s1 & props & Hb & Ho & Hall).
  injection Hb as <- <-.
  injection Ho as <-.
  destruct (Hall "actix_web" _ eq_refl) as (a & es & Hv & Ha & Hdesc).
  injection Hv as <-. injection Ha as <-.
  eexists. split; [exact Hdesc | reflexivity].
Defined.

(** C4: under the key ["actix_web"] the index holds exactly two entries;
    the first is shown as [impl Actor for ClientConnector] and links to
    [actix_web::client::ClientConnector]; the second is shown as
    [impl<T, A, H, U, V> Actor for HttpServer<T, A, H, U>] followed by its
    [where] clause, one bound a line, and links to [actix_web::HttpServer]. *)
Theorem actix_web_entries (σ : store) :
  ∃ l s1 es, build (init σ) = Done l s1 ∧
    entries_under (sto s1) (VObject (Obj l)) "actix_web" = Some es ∧
    length es = 2 ∧
    es = [VString impl_ClientConnector; VString impl_HttpServer] ∧
    render impl_ClientConnector = "impl Actor for ClientConnector" ∧
    linked_item impl_ClientConnector
    = Some ("struct", ["actix_web"; "client"; "ClientConnector"]) ∧
    render impl_HttpServer
    = String.concat newline
        [ "impl<T, A, H, U, V> Actor for HttpServer<T, A, H, U> where";
          "    A: 'static,";
          "    T: IoStream,";
          "    H: HttpHandler,";
          "    U: IntoIterator<Item = V> + 'static,";
          "    V: IntoHttpHandler<Handler = H>, " ] ∧
    linked_item impl_HttpServer = Some ("struct", ["actix_web"; "HttpServer"]).
Proof.
  destruct (build_init σ) as (l & a & s1 & Hb & _).
  exists l, s1, [VString impl_ClientConnector; VString impl_HttpServer].
  split; [done |]. split; [by apply (build_entries_actix_web σ) |].
  repeat split; by vm_compute.
Qed.

(** * More on the fragment *)

Lemma falsy_values_spec (v : value) : to_boolean v = false ↔ v ∈ falsy_values.
Proof.
  unfold falsy_values. rewrite !elem_of_cons, elem_of_nil. split.
  - destruct v as [| |[]|[[]| | |]|n|[]| |]; try done; cbn; auto 10.
    intros Hn. apply negb_false_iff, Z.eqb_eq in Hn as ->. auto 10.
  - intros H. by repeat (destruct H as [-> | H]).
Qed.



(** X2: the construction adds exactly one object and one array, both
    new, to the store, and leaves every object and array of the page as it
    was; unless the hook is a function, this is the state of the objects and
    arrays when the script ends. *)
Theorem construction_frame (code : fid → behaviour) (σ : store) :
  ∃ l s1, build (init σ) = Done l s1 ∧
    objects σ !! l = None ∧
    objects σ ⊆ objects (sto s1) ∧
    arrays σ ⊆ arrays (sto s1) ∧
    size (objects (sto s1)) = S (size (objects σ)) ∧
    size (arrays (sto s1)) = S (size (arrays σ)) ∧
    (is_callable (hook_of σ) = false →
       objects (load code σ) = objects (sto s1) ∧
       arrays (load code σ) = arrays (sto s1)).
Proof.
  destruct (build_init σ) as (l & a & s1 & Hb & _ & _ & Hl & Ha & Ho & Har).
  exists l, s1. split; [done |]. split; [done |]. rewrite Ho, Har.
  split; [by apply insert_subseteq |]. split; [by apply insert_subseteq |].
  split; [by apply map_size_insert_None |]. split; [by apply map_size_insert_None |].
  intros Hc. unfold load.
  destruct (hook_cases (hook_of σ)) as [Hf | [[f Hh] | [Ht _]]].
  - destruct (run_absent code σ Hf) as (l' & s' & Hb' & ->). same_build.
    by rewrite <- Ho, <- Har.
  - by rewrite Hh in Hc.
  - destruct (run_not_callable code σ Ht Hc) as (l' & s' & Hb' & ->). same_build.
    by rewrite <- Ho, <- Har.
Qed.

(** In a page with a queue, the queue is still there after the script. *)
Lemma construction_frame_witness :
  arrays (load quiet page_with_queue) !! 1%positive = Some [VString "earlier"].
Proof.
  destruct (construction_frame quiet page_with_queue)
    as (l & s1 & _ & _ & _ & Hsub & _ & _ & Hend).
  destruct (Hend eq_refl) as [_ ->].
  apply (lookup_weaken (arrays page_with_queue) _ 1%positive [VString "earlier"]);
    [reflexivity | exact Hsub].
Defined.

Lemma load_absent (code : fid → behaviour) (σ : store) :
  to_boolean (hook_of σ) = false →
  ∃ l a,
    objects σ !! l = None ∧ arrays σ !! a = None ∧
    globals (load code σ)
    = <["pending_implementors" := VObject (Obj l)]> (globals σ) ∧
    objects (load code σ)
    = <[l := {[ "actix_web" := VObject (Arr a) ]}]> (objects σ) ∧
    arrays (load code σ)
    = <[a := [VString impl_ClientConnector; VString impl_HttpServer]]> (arrays σ).
Proof.
  intros Hf.
  destruct (build_init σ) as (l & a & s1 & Hb & _ & Hg & Hl & Ha & Ho & Har).
  exists l, a. do 2 (split; [done |]). unfold load.
  destruct (run_absent code σ Hf) as (l' & s' & Hb' & ->). same_build.
  cbn. by rewrite Hg, Ho, Har.
Qed.

(** X3: loaded [n] times in a page without the hook, the fragment takes
    the fallback every time; each load adds one object and one array and
    changes none that was there; and the pending variable refers to the
    index built by the last load only, not to the earlier ones. *)
Theorem loads_keep_latest (code : fid → behaviour) (σ : store) (n : nat) :
  to_boolean (hook_of σ) = false →
  to_boolean (hook_of (loads code n σ)) = false ∧
  size (objects (loads code n σ)) = n + size (objects σ) ∧
  size (arrays (loads code n σ)) = n + size (arrays σ) ∧
  objects σ ⊆ objects (loads code n σ) ∧
  arrays σ ⊆ arrays (loads code n σ) ∧
  ∀ m, n = S m →
    ∃ l, globals (loads code n σ) !! "pending_implementors" = Some (VObject (Obj l)) ∧
         objects (loads code m σ) !! l = None ∧
         snapshot (loads code n σ) (VObject (Obj l)) = Some implementors_index.
Proof.
  intros Hf. induction n as [| n (IHf & IHo & IHa & IHso & IHsa & _)].
  - by repeat split.
  - change (loads code (S n) σ) with (load code (loads code n σ)).
    destruct (load_absent code _ IHf) as (l & a & Hl & Ha & Hg & Ho & Har).
    split; [| split; [| split; [| split; [| split]]]].
    + unfold hook_of, read_global in *. by rewrite Hg, lookup_insert_ne.
    + rewrite Ho, map_size_insert_None by done. lia.
    + rewrite Har, map_size_insert_None by done. lia.
    + rewrite Ho. etrans; [exact IHso | by apply insert_subseteq].
    + rewrite Har. etrans; [exact IHsa | by apply insert_subseteq].
    + intros m [= <-]. exists l. split; [by rewrite Hg, lookup_insert_eq |].
      split; [done |]. unfold snapshot.
      rewrite Ho, lookup_insert_eq, map_fmap_singleton.
      by rewrite Har, lookup_insert_eq.
Qed.

(** Two loads in the empty page: two objects, and the pending variable
    refers to one that the first load had not built. *)
Lemma loads_keep_latest_witness :
  size (objects (loads quiet 2 empty_page)) = 2 ∧
  ∃ l, globals (loads quiet 2 empty_page) !! "pending_implementors"
       = Some (VObject (Obj l)) ∧
       objects (loads quiet 1 empty_page) !! l = None.
Proof.
  destruct (loads_keep_latest quiet empty_page 2 eq_refl)
    as (_ & Hsize & _ & _ & _ & Hlast).
  split; [exact Hsize |].
  destruct (Hlast 1 eq_refl) as (l & Hp & Hnew & _).
  exists l. split; [exact Hp | exact Hnew].
Defined.

(** X4: the script ignores what the hook returns: in two pages whose
    functions differ at most in the values they return, the script ends in
    the same way, in the same store, after the same effects. *)
Theorem hook_result_ignored (code code' : fid → behaviour) (σ : store) :
  (∀ f, same_but_returned (code f) (code' f)) →
  run code σ = run code' σ.
Proof.
  intros Hsame.
  destruct (hook_cases (hook_of σ)) as [Hf | [[f Hh] | [Ht Hc]]].
  - destruct (run_absent code σ Hf) as (l & s & Hb & ->).
    destruct (run_absent code' σ Hf) as (l' & s' & Hb' & ->). by same_build.
  - destruct (run_callable code σ f Hh) as (l & s & Hb & ->).
    destruct (run_callable code' σ f Hh) as (l' & s' & Hb' & ->). same_build.
    specialize (Hsame f (VObject Window) [VObject (Obj l)] (sto s)).
    destruct (code f _ _ _), (code' f _ _ _); try done.
    + by subst.
    + destruct Hsame as [-> ->]. done.
  - destruct (run_not_callable code σ Ht Hc) as (l & s & Hb & ->).
    destruct (run_not_callable code' σ Ht Hc) as (l' & s' & Hb' & ->).
    by same_build.
Qed.

(** A hook that returns [true] and one that returns nothing. *)
Lemma hook_result_ignored_witness :
  run answering (page_with (VObject (Fun 0))) = run quiet (page_with (VObject (Fun 0))).
Proof.
  apply hook_result_ignored. intros f this args σ. reflexivity.
Defined.

(** * The session handler *)

Section IndexProperties.

Context {Sess E : Type}.
Variable session_get : string → Sess → Result (option Z) E * Sess.
Variable session_set : string → Z → Sess → Result unit E * Sess.
Variable overflow_checks : bool.

(** The handler, by what the session answers. *)
Lemma index_eq (w : world Sess) :
  index session_get session_set overflow_checks w =
  match session_get "counter" (session w) with
  | (Err e, s1) => (Raise e, World s1 (stdout w))
  | (Ok None, s1) =>
      match session_set "counter" 1%Z s1 with
      | (Ok _, s2) => (Next "Welcome!", World s2 (stdout w))
      | (Err e, s2) => (Raise e, World s2 (stdout w))
      end
  | (Ok (Some count), s1) =>
      match add_i32 overflow_checks count 1 with
      | None =>
          (Abort "attempt to add with overflow", World s1 (stdout w ++ [printed count]))
      | Some next =>
          match session_set "counter" next s1 with
          | (Ok _, s2) => (Next "Welcome!", World s2 (stdout w ++ [printed count]))
          | (Err e, s2) => (Raise e, World s2 (stdout w ++ [printed count]))
          end
      end
  end.
Proof.
  unfold index, mbind, Handler_bind, mret, Handler_ret, try_session,
    println, add.
  destruct (session_get _ _) as [[[count |] | e] s1]; cbn [session stdout]; try done.
  - destruct (add_i32 _ _ _); [| done].
    by destruct (session_set _ _ _) as [[[] | e] s2].
  - by destruct (session_set _ _ _) as [[[] | e] s2].
Qed.



(** The session gives back what was written in it, and writing an [i32]
    under [counter] does not fail. *)
Hypothesis get_set : ∀ k v s s',
  session_set k v s = (Ok tt, s') → (session_get k s').1 = Ok (Some v).
Hypothesis set_counter : ∀ v s,
  is_i32 v = true → (session_set "counter" v s).1 = Ok tt.

Lemma visit_first (w : world Sess) :
  (session_get "counter" (session w)).1 = Ok None →
  ∃ w', index session_get session_set overflow_checks w = (Next "Welcome!", w') ∧
        (session_get "counter" (session w')).1 = Ok (Some 1%Z) ∧
        stdout w' = stdout w.
Proof.
  intros Hget. rewrite index_eq.
  destruct (session_get _ _) as [r s1] eqn:Hg. cbn in Hget. subst r.
  pose proof (set_counter 1%Z s1 eq_refl) as Hset.
  destruct (session_set _ _ _) as [r s2] eqn:Hs. cbn in Hset. subst r.
  eexists. split; [done |]. split; [| done]. cbn. by eapply get_set.
Qed.

Lemma visit_next (w : world Sess) (count : Z) :
  (0 < count < i32_MAX)%Z →
  (session_get "counter" (session w)).1 = Ok (Some count) →
  ∃ w', index session_get session_set overflow_checks w = (Next "Welcome!", w') ∧
        (session_get "counter" (session w')).1 = Ok (Some (count + 1)%Z) ∧
        stdout w' = stdout w ++ [printed count].
Proof.
  intros Hrange Hget. rewrite index_eq.
  destruct (session_get _ _) as [r s1] eqn:Hg. cbn in Hget. subst r.
  assert (Hfit : is_i32 (count + 1) = true).
  { unfold is_i32, i32_MIN, i32_MAX in *.
    apply andb_true_iff. split; apply Z.leb_le; lia. }
  unfold add_i32. rewrite Hfit.
  pose proof (set_counter (count + 1)%Z s1 Hfit) as Hset.
  destruct (session_set _ _ _) as [r s2] eqn:Hs. cbn in Hset. subst r.
  eexists. split; [done |]. split; [| done]. cbn. by eapply get_set.
Qed.


End IndexProperties.


